(** * Falling-motion simulator: a shallow embedding of [app.py]

    The program evaluates closed-form kinematics (free fall, and fall with
    quadratic drag) over a time grid and hands the series to matplotlib.

    Conventions of the embedding.
    - Python floats and numpy float64 values are idealised as real numbers
      ([R]): no rounding and no overflow.  The places where Python or numpy
      leave the finite reals for exact reasons are kept: a float division by
      zero raises [ZeroDivisionError], a numpy division by zero yields
      inf/nan, a negative float raised to [0.5] is a complex number.
    - Python [int]s are [Z]; strings are [string] (UTF-8 bytes).
    - A function of the source that can raise returns an [outcome].

    Limits of the idealisation.  The drag formulas raise [np.e] to the power
    [2 * g * t / v_t]; in binary64 that power overflows above about 709.78,
    and near saturation the rounded quotient [(E - 1) / (E + 1)] is only
    within a rounding error of 1.  The statements below that involve the drag
    functions at times [t > 0] are statements about the real-valued formulas
    of the source. *)

From Stdlib Require Import Reals Lra Lia ZArith List String Bool.
Import ListNotations.

Local Open Scope R_scope.

(** ** Outcomes of a Python expression *)

Module Py.

(** The exception classes the modelled code can raise. *)
Inductive exn : Type :=
| ZeroDivisionError
| ValueError
| IndexError.

Definition exn_name (e : exn) : string :=
  match e with
  | ZeroDivisionError => "ZeroDivisionError"
  | ValueError => "ValueError"
  | IndexError => "IndexError"
  end.

(** Values outside the finite reals, which the embedding does not follow
    further. *)
Inductive nonreal : Type :=
| Complex      (* a negative float to a fractional power *)
| NonFinite.   (* numpy's inf or nan *)

Inductive outcome (A : Type) : Type :=
| Ok (a : A)
| Raise (e : exn)
| Leaves (w : nonreal).

Arguments Ok {A} a.
Arguments Raise {A} e.
Arguments Leaves {A} w.

Definition bind {A B : Type} (c : outcome A) (k : A -> outcome B) : outcome B :=
  match c with
  | Ok a => k a
  | Raise e => Raise e
  | Leaves w => Leaves w
  end.

Definition raises {A : Type} (c : outcome A) (name : string) : Prop :=
  exists e, c = Raise e /\ exn_name e = name.

Definition completes {A : Type} (c : outcome A) : Prop :=
  exists a, c = Ok a.

End Py.
Import Py.

Notation "x <- c ;; k" := (bind c (fun x => k))
  (at level 61, c at next level, right associativity).

(** ** Arithmetic of Python floats and numpy arrays *)

Definition Rzero_b (r : R) : bool :=
  if Req_dec_T r 0 then true else false.

(** [a / b] on Python floats. *)
Definition float_div (a b : R) : outcome R :=
  if Rzero_b b then Raise ZeroDivisionError else Ok (a / b).

(** [x ** 0.5] on a Python float. *)
Definition float_pow_half (x : R) : outcome R :=
  match total_order_T 0 x with
  | inleft (left _) => Ok (Rpower x 0.5)
  | inleft (right _) => Ok 0
  | inright _ => Leaves Complex
  end.

(** [np.e], and [np.e ** a] for a real exponent, as the exact exponential.
    The binary64 power overflows once [a] exceeds about 709.78 (a Python
    float then raises [OverflowError], an array entry becomes inf); that
    limit is not part of this definition. *)
Definition np_e : R := exp 1.
Definition e_pow (a : R) : R := Rpower np_e a.

(** [np.log] on a positive argument. *)
Definition np_log (a : R) : R := ln a.

Fixpoint map2 {A B C : Type} (f : A -> B -> C) (l : list A) (l' : list B) : list C :=
  match l, l' with
  | a :: l, b :: l' => f a b :: map2 f l l'
  | _, _ => []
  end.

(** The time argument of the kinematics functions is a float or an ndarray;
    the arithmetic operators act on either. *)
Class Num (F : Type) : Type := {
  lift1 : (R -> R) -> F -> F;
  lift2 : (R -> R -> R) -> F -> F -> F;
  div_scalar : F -> R -> outcome F;
  div : F -> F -> outcome F
}.

#[export] Instance Num_float : Num R := {
  lift1 f t := f t;
  lift2 f t u := f t u;
  div_scalar t d := float_div t d;
  div t u := float_div t u
}.

#[export] Instance Num_ndarray : Num (list R) := {
  lift1 f x := map f x;
  lift2 f x y := map2 f x y;
  div_scalar x d :=
    if Rzero_b d then
      match x with
      | [] => Ok []
      | _ :: _ => Leaves NonFinite
      end
    else Ok (map (fun t => t / d) x);
  div x y :=
    if existsb Rzero_b y then Leaves NonFinite else Ok (map2 Rdiv x y)
}.

(** ** The kinematics functions *)

Definition g : R := 9.80665.
Definition rho : R := 1.225.

Definition velocity {F : Type} `{Num F} (t : F) : F :=
  lift1 (fun t => g * t) t.

Definition height {F : Type} `{Num F} (h : Z) (t : F) : F :=
  lift1 (fun p => IZR h - p) (lift2 Rmult (lift1 (fun v => 0.5 * v) (velocity t)) t).

Definition terminal_velocity_with_air_resistance (Cd A : R) (m : Z) : outcome R :=
  q <- float_div (2 * IZR m * g) (rho * Cd * A) ;;
  float_pow_half q.

Definition velocity_with_air_resistance {F : Type} `{Num F}
    (Cd A : R) (m : Z) (t : F) : outcome F :=
  v_t <- terminal_velocity_with_air_resistance Cd A m ;;
  a <- div_scalar (lift1 (fun t => 2 * g * t) t) v_t ;;
  div (lift1 (fun a => v_t * (e_pow a - 1)) a) (lift1 (fun a => e_pow a + 1) a).

Definition height_with_air_resistance {F : Type} `{Num F}
    (Cd A : R) (h m : Z) (t : F) : outcome F :=
  v_t <- terminal_velocity_with_air_resistance Cd A m ;;
  let vt_t := lift1 (fun t => v_t * t) t in
  a <- div_scalar (lift1 (fun t => 2 * g * t) t) v_t ;;
  let l := lift1 (fun a => v_t ^ 2 / g * np_log (e_pow a + 1)) a in
  Ok (lift1 (fun d => IZR h + (d + v_t ^ 2 / g * np_log 2)) (lift2 Rminus vt_t l)).

Definition format_quality (quality : Z) : string :=
  if (quality =? 20)%Z then "낮음"
  else if (quality =? 30)%Z then "중간"
  else "높음".

(** ** numpy arrays: construction, indexing, slicing *)

(** [a[-1] = v] on an array: the last element is overwritten. *)
Definition set_last (a : list R) (v : R) : list R :=
  match a with
  | [] => []
  | _ => removelast a ++ [v]
  end.

(** [np.linspace(start, stop, num)] with numpy's defaults ([endpoint=True]),
    after numpy's own algorithm: [arange(0, num)] is scaled by the step
    [delta / div], shifted by [start], and the last sample is set to [stop]. *)
Definition linspace (start stop : R) (num : Z) : outcome (list R) :=
  if (num <? 0)%Z then Raise ValueError
  else
    let div := (num - 1)%Z in
    let delta := stop - start in
    let y := map INR (seq 0 (Z.to_nat num)) in
    let y :=
      if (0 <? div)%Z then
        let step := delta / IZR div in
        if Rzero_b step then map (fun i => i / IZR div * delta) y
        else map (fun i => i * step) y
      else map (fun i => i * delta) y in
    let y := map (fun v => v + start) y in
    Ok (if (1 <? num)%Z then set_last y stop else y).

(** [a[i]] for an integer index, negative indices counting from the end. *)
Definition index (a : list R) (i : Z) : outcome R :=
  let n := Z.of_nat (List.length a) in
  if ((0 <=? i) && (i <? n))%Z%bool then Ok (nth (Z.to_nat i) a 0)
  else if ((- n <=? i) && (i <? 0))%Z%bool then Ok (nth (Z.to_nat (n + i)) a 0)
  else Raise IndexError.


(** ** The renderer *)

Definition mode_velocity : string := "속도".
Definition mode_height : string := "높이".

(** What [simulate] hands to matplotlib: the axes set-up, the data captured by
    the frame callback, and the arguments of [FuncAnimation] and [save]. *)
Record Animation : Type := {
  anim_x : list R;
  anim_y : list R;
  xlim : R * R;
  xlabel : string;
  ylim : R * R;
  ylabel : string;
  title : string;
  frames : nat;
  interval : R;
  blit : bool;
  save_filename : string;
  save_writer : string;
  save_fps : Z
}.


(** Lines 55-67: the choice of the model. *)
Definition series (Cd A : R) (h m : Z) (air_resistance : bool) (mode : string)
    (x : list R) : outcome (list R) :=
  if air_resistance then
    if (mode =? mode_velocity)%string then velocity_with_air_resistance Cd A m x
    else height_with_air_resistance Cd A h m x
  else
    if (mode =? mode_velocity)%string then Ok (velocity x)
    else Ok (height h x).

(** Lines 76-82: the limits and the label of the y axis. *)
Definition y_axis (mode : string) (y : list R) : outcome (R * R * string) :=
  if (mode =? mode_velocity)%string then
    y_last <- index y (-1) ;;
    Ok (0, y_last * 1.1, "Velocity (m/s)"%string)
  else
    y_last <- index y (-1) ;;
    y_first <- index y (- 0) ;;
    Ok (y_last * 1.1, y_first * 1.1, "Height (m)"%string).

Definition simulate (Cd A : R) (h m : Z) (air_resistance : bool) (mode : string)
    (seconds fps : Z) : outcome Animation :=
  x <- linspace 0 (IZR seconds) (fps * seconds + 1) ;;
  y <- series Cd A h m air_resistance mode x ;;
  x_first <- index x 0 ;;
  x_last <- index x (-1) ;;
  yax <- y_axis mode y ;;
  let fig_title :=
    if air_resistance then "Fall Motion with Air Resistance"%string
    else "Free Fall Motion"%string in
  ival <- float_div 1000 (IZR fps) ;;
  Ok {| anim_x := x;
        anim_y := y;
        xlim := (x_first, x_last * 1.1);
        xlabel := "Time (s)";
        ylim := fst yax;
        ylabel := snd yax;
        title := fig_title;
        frames := List.length x;
        interval := ival;
        blit := true;
        save_filename := "video.mp4";
        save_writer := "ffmpeg";
        save_fps := fps |}.

(** ** Reference forms used in the statements *)

(** The reference formula of the terminal velocity. *)
Definition terminal_velocity_formula (Cd A : R) (m : Z) : R :=
  sqrt (2 * IZR m * g / (rho * Cd * A)).

(** The two expressions of the source, for a terminal velocity [v_t]. *)
Definition velocity_exp_form (v_t t : R) : R :=
  v_t * (exp (2 * g * t / v_t) - 1) / (exp (2 * g * t / v_t) + 1).

Definition height_exp_form (v_t : R) (h : Z) (t : R) : R :=
  IZR h + (v_t * t - v_t ^ 2 / g * ln (exp (2 * g * t / v_t) + 1) + v_t ^ 2 / g * ln 2).

(** The fraction [(E - 1) / (E + 1)] of the velocity, as a function of the
    exponential [E]. *)
Definition ratio (E : R) : R := (E - 1) / (E + 1).


(** The physical parameters are usable by the selected model. *)
Definition usable (Cd A : R) (m : Z) (air_resistance : bool) : Prop :=
  air_resistance = true -> 0 < Cd /\ 0 < A /\ (0 < m)%Z.

(** The arguments of [FuncAnimation] and [save], for an interval [ival]. *)
Definition animation_of (x y : list R) (air_resistance : bool) (mode : string)
    (fps : Z) (ival : R) : Animation :=
  {| anim_x := x;
     anim_y := y;
     xlim := (nth 0 x 0, last x 0 * 1.1);
     xlabel := "Time (s)";
     ylim := if (mode =? mode_velocity)%string then (0, last y 0 * 1.1)
             else (last y 0 * 1.1, nth 0 y 0 * 1.1);
     ylabel := if (mode =? mode_velocity)%string then "Velocity (m/s)"
               else "Height (m)";
     title := if air_resistance then "Fall Motion with Air Resistance"
              else "Free Fall Motion";
     frames := List.length x;
     interval := ival;
     blit := true;
     save_filename := "video.mp4";
     save_writer := "ffmpeg";
     save_fps := fps |}.


(** ** Facts about the arithmetic layer *)

Lemma g_pos : 0 < g.
Proof. unfold g. lra. Qed.

Lemma rho_pos : 0 < rho.
Proof. unfold rho. lra. Qed.

Lemma Rzero_b_true (r : R) : r = 0 -> Rzero_b r = true.
Proof. intros ->. unfold Rzero_b. destruct (Req_dec_T 0 0); congruence. Qed.

Lemma Rzero_b_false (r : R) : r <> 0 -> Rzero_b r = false.
Proof. intros Hr. unfold Rzero_b. destruct (Req_dec_T r 0); congruence. Qed.

Lemma float_div_ok (a b : R) : b <> 0 -> float_div a b = Ok (a / b).
Proof. intros Hb. unfold float_div. now rewrite Rzero_b_false. Qed.

Lemma float_div_zero (a b : R) : b = 0 -> float_div a b = Raise ZeroDivisionError.
Proof. intros Hb. unfold float_div. now rewrite Rzero_b_true. Qed.

Lemma float_pow_half_sqrt (x : R) : 0 < x -> float_pow_half x = Ok (sqrt x).
Proof.
  intros Hx. unfold float_pow_half.
  destruct (total_order_T 0 x) as [[Hlt | Heq] | Hgt]; try lra.
  f_equal. replace 0.5 with (/ 2) by lra. now apply Rpower_sqrt.
Qed.

Lemma float_pow_half_neg (x : R) : x < 0 -> float_pow_half x = Leaves Complex.
Proof.
  intros Hx. unfold float_pow_half.
  destruct (total_order_T 0 x) as [[Hlt | Heq] | Hgt]; try lra. reflexivity.
Qed.

Lemma e_pow_exp (a : R) : e_pow a = exp a.
Proof.
  unfold e_pow, np_e, Rpower. rewrite ln_exp. f_equal. lra.
Qed.

Lemma e_pow_pos (a : R) : 0 < e_pow a.
Proof. rewrite e_pow_exp. apply exp_pos. Qed.

Lemma e_pow_0 : e_pow 0 = 1.
Proof. rewrite e_pow_exp. apply exp_0. Qed.

(** ** The terminal velocity *)

Lemma radicand_pos (Cd A : R) (m : Z) :
  0 < Cd * A -> (0 < m)%Z -> 0 < 2 * IZR m * g / (rho * Cd * A).
Proof.
  intros HCA Hm. apply IZR_lt in Hm.
  pose proof g_pos. pose proof rho_pos.
  assert (0 < rho * Cd * A) by (rewrite Rmult_assoc; apply Rmult_lt_0_compat; lra).
  assert (0 < 2 * IZR m * g) by (apply Rmult_lt_0_compat; lra).
  now apply Rdiv_lt_0_compat.
Qed.

Lemma terminal_velocity_sqrt (Cd A : R) (m : Z) :
  0 < Cd * A -> (0 < m)%Z ->
  terminal_velocity_with_air_resistance Cd A m = Ok (terminal_velocity_formula Cd A m).
Proof.
  intros HCA Hm. unfold terminal_velocity_with_air_resistance.
  pose proof rho_pos as Hrho.
  rewrite float_div_ok.
  - cbn [bind]. apply float_pow_half_sqrt. now apply radicand_pos.
  - rewrite Rmult_assoc. apply Rgt_not_eq, Rmult_lt_0_compat; lra.
Qed.

Lemma terminal_velocity_zero_division (Cd A : R) (m : Z) :
  Cd * A = 0 ->
  terminal_velocity_with_air_resistance Cd A m = Raise ZeroDivisionError.
Proof.
  intros HCA. unfold terminal_velocity_with_air_resistance.
  rewrite float_div_zero; [reflexivity |].
  rewrite Rmult_assoc, HCA. lra.
Qed.

Lemma terminal_velocity_formula_pos (Cd A : R) (m : Z) :
  0 < Cd * A -> (0 < m)%Z -> 0 < terminal_velocity_formula Cd A m.
Proof. intros HCA Hm. apply sqrt_lt_R0. now apply radicand_pos. Qed.

(** ** The drag model at a single time *)

Section Drag.

Variables (Cd A : R) (m : Z).
Hypothesis HCd : 0 < Cd.
Hypothesis HA : 0 < A.
Hypothesis Hm : (0 < m)%Z.

Let v_t : R := terminal_velocity_formula Cd A m.

Lemma drag_product_pos : 0 < Cd * A.
Proof using HCd HA. now apply Rmult_lt_0_compat. Qed.

Lemma drag_terminal : terminal_velocity_with_air_resistance Cd A m = Ok v_t.
Proof using HCd HA Hm. apply terminal_velocity_sqrt; [apply drag_product_pos | exact Hm]. Qed.

Lemma drag_terminal_pos : 0 < v_t.
Proof using HCd HA Hm.
  apply terminal_velocity_formula_pos; [apply drag_product_pos | exact Hm].
Qed.

Lemma drag_velocity (t : R) :
  velocity_with_air_resistance Cd A m t = Ok (velocity_exp_form v_t t).
Proof using HCd HA Hm.
  pose proof drag_terminal_pos as Hv.
  unfold velocity_with_air_resistance. rewrite drag_terminal. cbn [bind].
  cbn [div_scalar div lift1 Num_float].
  rewrite float_div_ok by lra. cbn [bind].
  rewrite float_div_ok by (pose proof (e_pow_pos (2 * g * t / v_t)); lra).
  unfold velocity_exp_form. now rewrite e_pow_exp.
Qed.

Lemma drag_height (h : Z) (t : R) :
  height_with_air_resistance Cd A h m t = Ok (height_exp_form v_t h t).
Proof using HCd HA Hm.
  pose proof drag_terminal_pos as Hv.
  unfold height_with_air_resistance. rewrite drag_terminal. cbn [bind].
  cbn [div_scalar lift1 lift2 Num_float].
  rewrite float_div_ok by lra. cbn [bind].
  unfold height_exp_form, np_log. now rewrite e_pow_exp.
Qed.

End Drag.

(** ** Closed forms of the drag model *)

Lemma velocity_exp_form_ratio (v_t t : R) :
  velocity_exp_form v_t t = v_t * ratio (exp (2 * g * t / v_t)).
Proof. unfold velocity_exp_form, ratio, Rdiv. ring. Qed.

Lemma height_exp_form_0 (v_t : R) (h : Z) : height_exp_form v_t h 0 = IZR h.
Proof.
  unfold height_exp_form.
  replace (2 * g * 0 / v_t) with 0 by (unfold Rdiv; ring).
  rewrite exp_0. replace (1 + 1) with 2 by ring. ring.
Qed.

(** ** Claims about the kinematics engine *)

(** C6: for positive [Cd], [A], [m] and any initial height [h0],
    [height_with_air_resistance] at [t = 0] is exactly [h0]. *)
Theorem height_with_air_resistance_at_0 (Cd A : R) (h0 m : Z) :
  0 < Cd -> 0 < A -> (0 < m)%Z ->
  height_with_air_resistance Cd A h0 m 0 = Ok (IZR h0).
Proof.
  intros HCd HA Hm.
  rewrite (drag_height Cd A m HCd HA Hm h0 0).
  f_equal. apply height_exp_form_0.
Qed.

Lemma height_with_air_resistance_at_0_witness :
  height_with_air_resistance 0.42 19.25 70 1000 0 = Ok (IZR 70).
Proof.
  apply (height_with_air_resistance_at_0 0.42 19.25 70 1000); try lra; lia.
Defined.

(** C7: when [Cd * A > 0] and [m > 0] the terminal velocity is
    [sqrt (2*m*g / (rho*Cd*A))] with [g = 9.80665] and [rho = 1.225]; when
    [Cd * A = 0] the computation divides by zero. *)
Theorem terminal_velocity_with_air_resistance_formula :
  g = 9.80665 /\ rho = 1.225 /\
  (forall (Cd A : R) (m : Z),
     0 < Cd * A -> (0 < m)%Z ->
     terminal_velocity_with_air_resistance Cd A m
       = Ok (sqrt (2 * IZR m * g / (rho * Cd * A)))) /\
  (forall (Cd A : R) (m : Z),
     Cd * A = 0 ->
     terminal_velocity_with_air_resistance Cd A m = Raise ZeroDivisionError).
Proof.
  split; [reflexivity |]. split; [reflexivity |]. split.
  - intros Cd A m HCA Hm. now apply terminal_velocity_sqrt.
  - intros Cd A m HCA. now apply terminal_velocity_zero_division.
Qed.

Lemma terminal_velocity_with_air_resistance_formula_witness :
  terminal_velocity_with_air_resistance 0.42 19.25 1000
    = Ok (sqrt (2 * IZR 1000 * g / (rho * 0.42 * 19.25))) /\
  terminal_velocity_with_air_resistance 0 19.25 1000 = Raise ZeroDivisionError.
Proof.
  destruct terminal_velocity_with_air_resistance_formula as (_ & _ & Hok & Hzero).
  split.
  - apply (Hok 0.42 19.25 1000%Z); [lra | lia].
  - apply (Hzero 0 19.25 1000%Z). lra.
Defined.

(** ** The time grid *)

Lemma length_set_last (a : list R) (v : R) :
  List.length (set_last a v) = List.length a.
Proof.
  destruct a as [| r a]; [reflexivity |].
  unfold set_last. rewrite removelast_firstn_len, length_app, length_firstn.
  cbn [List.length Nat.pred]. lia.
Qed.


Lemma last_set_last (a : list R) (v d : R) :
  a <> [] -> last (set_last a v) d = v.
Proof.
  intros Ha. destruct a as [| r a]; [congruence |].
  unfold set_last. apply last_last.
Qed.








(** ** The kinematics functions on arrays *)

Lemma map2_map_same {T B C D : Type} (f : B -> C -> D) (p : T -> B) (q : T -> C)
    (l : list T) :
  map2 f (map p l) (map q l) = map (fun a => f (p a) (q a)) l.
Proof. induction l as [| a l IH]; cbn; [reflexivity | now rewrite IH]. Qed.

Lemma existsb_map_never {T U : Type} (P : U -> bool) (f : T -> U) (l : list T) :
  (forall a, P (f a) = false) -> existsb P (map f l) = false.
Proof.
  intros HP. induction l as [| a l IH]; cbn; [reflexivity |].
  now rewrite HP, IH.
Qed.

Lemma velocity_array (x : list R) : velocity x = map (fun t => g * t) x.
Proof. reflexivity. Qed.

Lemma height_array (h : Z) (x : list R) :
  height h x = map (fun t => IZR h - 0.5 * (g * t) * t) x.
Proof.
  unfold height, velocity. cbn [lift1 lift2 Num_ndarray].
  rewrite map_map.
  rewrite <- (map_id x) at 2. rewrite map2_map_same, map_map.
  reflexivity.
Qed.

Section DragArray.

Variables (Cd A : R) (m : Z).
Hypothesis HCd : 0 < Cd.
Hypothesis HA : 0 < A.
Hypothesis Hm : (0 < m)%Z.

Let v_t : R := terminal_velocity_formula Cd A m.

Lemma drag_velocity_array (x : list R) :
  velocity_with_air_resistance Cd A m x = Ok (map (velocity_exp_form v_t) x).
Proof using HCd HA Hm.
  pose proof (drag_terminal_pos Cd A m HCd HA Hm) as Hv. fold v_t in Hv.
  unfold velocity_with_air_resistance.
  rewrite (drag_terminal Cd A m HCd HA Hm). fold v_t. cbn [bind].
  cbn [div_scalar div lift1 Num_ndarray].
  rewrite Rzero_b_false by lra. cbn [bind].
  rewrite !map_map, map2_map_same.
  rewrite existsb_map_never.
  - f_equal. apply map_ext. intros t.
    unfold velocity_exp_form. now rewrite e_pow_exp.
  - intros t. apply Rzero_b_false. pose proof (e_pow_pos (2 * g * t / v_t)). lra.
Qed.

Lemma drag_height_array (h : Z) (x : list R) :
  height_with_air_resistance Cd A h m x = Ok (map (height_exp_form v_t h) x).
Proof using HCd HA Hm.
  pose proof (drag_terminal_pos Cd A m HCd HA Hm) as Hv. fold v_t in Hv.
  unfold height_with_air_resistance.
  rewrite (drag_terminal Cd A m HCd HA Hm). fold v_t. cbn [bind].
  cbn [div_scalar lift1 lift2 Num_ndarray].
  rewrite Rzero_b_false by lra. cbn [bind].
  rewrite !map_map, map2_map_same, map_map.
  f_equal. apply map_ext. intros t.
  unfold height_exp_form, np_log. now rewrite e_pow_exp.
Qed.

End DragArray.

(** ** Indexing and slicing *)

Lemma index_first (a : list R) : a <> [] -> index a 0 = Ok (nth 0 a 0).
Proof.
  intros Ha. unfold index. destruct a as [| r a]; [congruence |].
  cbn [List.length].
  destruct (Z.leb_spec 0 0); [| lia].
  destruct (Z.ltb_spec 0 (Z.of_nat (S (List.length a)))); [reflexivity | lia].
Qed.

Lemma index_last (a : list R) : a <> [] -> index a (-1) = Ok (last a 0).
Proof.
  intros Ha. unfold index.
  destruct (exists_last Ha) as (a' & r & ->).
  rewrite last_last, length_app. cbn [List.length].
  destruct (Z.leb_spec 0 (-1)); [lia |]. cbn [andb].
  destruct (Z.leb_spec (- Z.of_nat (List.length a' + 1)) (-1)); [| lia].
  destruct (Z.ltb_spec (-1) 0); [| lia]. cbn [andb].
  replace (Z.to_nat (Z.of_nat (List.length a' + 1) + -1)) with (List.length a') by lia.
  now rewrite nth_middle.
Qed.



(** ** Running [simulate] *)


Lemma linspace_total (start stop : R) (num : Z) :
  (0 <= num)%Z ->
  exists x, linspace start stop num = Ok x /\ List.length x = Z.to_nat num.
Proof.
  intros Hnum. unfold linspace.
  destruct (Z.ltb_spec num 0); [lia |].
  eexists. split; [reflexivity |].
  destruct (1 <? num)%Z, (0 <? num - 1)%Z;
    try destruct (Rzero_b _);
    rewrite ?length_set_last, !length_map, length_seq; reflexivity.
Qed.

Lemma series_free (Cd A : R) (h m : Z) (mode : string) (x : list R) :
  series Cd A h m false mode x
  = Ok (if (mode =? mode_velocity)%string then map (fun t => g * t) x
        else map (fun t => IZR h - 0.5 * (g * t) * t) x).
Proof.
  unfold series. destruct (mode =? mode_velocity)%string.
  - now rewrite velocity_array.
  - now rewrite height_array.
Qed.

Lemma series_drag (Cd A : R) (h m : Z) (mode : string) (x : list R) :
  0 < Cd -> 0 < A -> (0 < m)%Z ->
  series Cd A h m true mode x
  = Ok (if (mode =? mode_velocity)%string
        then map (velocity_exp_form (terminal_velocity_formula Cd A m)) x
        else map (height_exp_form (terminal_velocity_formula Cd A m) h) x).
Proof.
  intros HCd HA Hm. unfold series. destruct (mode =? mode_velocity)%string.
  - now apply drag_velocity_array.
  - now apply drag_height_array.
Qed.

Lemma series_usable (Cd A : R) (h m : Z) (air_resistance : bool) (mode : string)
    (x : list R) :
  usable Cd A m air_resistance ->
  exists y,
    series Cd A h m air_resistance mode x = Ok y /\ List.length y = List.length x.
Proof.
  intros Hu. destruct air_resistance.
  - destruct Hu as (HCd & HA & Hm); [reflexivity |].
    rewrite series_drag by assumption.
    eexists. split; [reflexivity |].
    destruct (mode =? mode_velocity)%string; apply length_map.
  - rewrite series_free. eexists. split; [reflexivity |].
    destruct (mode =? mode_velocity)%string; apply length_map.
Qed.

Lemma nonempty_length {T : Type} (l : list T) : (0 < List.length l)%nat -> l <> [].
Proof. destruct l; cbn; [lia | congruence]. Qed.

Lemma simulate_axes (Cd A : R) (h m : Z) (air_resistance : bool) (mode : string)
    (seconds fps : Z) (x y : list R) :
  linspace 0 (IZR seconds) (fps * seconds + 1) = Ok x ->
  series Cd A h m air_resistance mode x = Ok y ->
  (0 < List.length x)%nat -> List.length y = List.length x ->
  simulate Cd A h m air_resistance mode seconds fps
  = (ival <- float_div 1000 (IZR fps) ;;
     Ok (animation_of x y air_resistance mode fps ival)).
Proof.
  intros Hx Hy Hlen Hxy.
  assert (Hxne : x <> []) by now apply nonempty_length.
  assert (Hyne : y <> []) by (apply nonempty_length; lia).
  unfold simulate. rewrite Hx. cbn [bind]. rewrite Hy. cbn [bind].
  rewrite index_first, index_last by assumption. cbn [bind].
  unfold y_axis, animation_of. change (- 0)%Z with 0%Z.
  destruct (mode =? mode_velocity)%string;
    rewrite ?index_last, ?index_first by assumption; reflexivity.
Qed.

Lemma simulate_run (Cd A : R) (h m : Z) (air_resistance : bool) (mode : string)
    (seconds fps : Z) (x y : list R) :
  linspace 0 (IZR seconds) (fps * seconds + 1) = Ok x ->
  series Cd A h m air_resistance mode x = Ok y ->
  (0 < List.length x)%nat -> List.length y = List.length x -> fps <> 0%Z ->
  simulate Cd A h m air_resistance mode seconds fps
  = Ok (animation_of x y air_resistance mode fps (1000 / IZR fps)).
Proof.
  intros Hx Hy Hlen Hxy Hfps.
  rewrite (simulate_axes _ _ _ _ _ _ _ _ x y) by assumption.
  now rewrite float_div_ok by (apply not_0_IZR; exact Hfps).
Qed.

Lemma simulate_completes (Cd A : R) (h m : Z) (air_resistance : bool) (mode : string)
    (seconds fps : Z) :
  (0 <= seconds)%Z -> (1 <= fps)%Z -> usable Cd A m air_resistance ->
  exists a,
    simulate Cd A h m air_resistance mode seconds fps = Ok a /\
    linspace 0 (IZR seconds) (fps * seconds + 1) = Ok (anim_x a) /\
    series Cd A h m air_resistance mode (anim_x a) = Ok (anim_y a) /\
    Z.of_nat (List.length (anim_x a)) = (fps * seconds + 1)%Z /\
    List.length (anim_y a) = List.length (anim_x a) /\
    frames a = List.length (anim_x a) /\
    interval a = 1000 / IZR fps /\
    ylabel a = (if (mode =? mode_velocity)%string then "Velocity (m/s)"
                else "Height (m)")%string.
Proof.
  intros Hs Hf Hu.
  assert (Hnum : (1 <= fps * seconds + 1)%Z) by nia.
  destruct (linspace_total 0 (IZR seconds) (fps * seconds + 1)) as (x & Hx & Hlen);
    [lia |].
  destruct (series_usable Cd A h m air_resistance mode x Hu) as (y & Hy & Hxy).
  eexists. split.
  - apply (simulate_run _ _ _ _ _ _ _ _ x y); try assumption; lia.
  - cbn [animation_of anim_x anim_y frames interval ylabel].
    repeat split; try assumption; try reflexivity. lia.
Qed.

Lemma completes_not_raises {T : Type} (c : outcome T) (name : string) :
  completes c -> ~ raises c name.
Proof. intros (a & ->) (e & He & _). discriminate. Qed.


(** ** Claims about the renderer *)



(** C9: [format_quality] gives the low label for 20, the medium label for 30
    and the high label for every other value, 60 included. *)
Theorem format_quality_labels :
  format_quality 20 = "낮음"%string /\
  format_quality 30 = "중간"%string /\
  format_quality 60 = "높음"%string /\
  forall quality : Z,
    quality <> 20%Z -> quality <> 30%Z -> format_quality quality = "높음"%string.
Proof.
  repeat split.
  intros quality H20 H30. unfold format_quality.
  destruct (Z.eqb_spec quality 20); [contradiction |].
  destruct (Z.eqb_spec quality 30); [contradiction | reflexivity].
Qed.

Lemma format_quality_labels_witness :
  format_quality 25 = "높음"%string /\ format_quality (-1) = "높음"%string.
Proof.
  destruct format_quality_labels as (_ & _ & _ & Hother).
  split; apply Hother; lia.
Defined.



(** ** Claims about rejected inputs *)

Lemma zero_drag_product (Cd A : R) : Cd = 0 \/ A = 0 -> Cd * A = 0.
Proof. intros [-> | ->]; ring. Qed.

Lemma series_zero_drag (Cd A : R) (h m : Z) (mode : string) (x : list R) :
  Cd * A = 0 -> series Cd A h m true mode x = Raise ZeroDivisionError.
Proof.
  intros HCA. unfold series, velocity_with_air_resistance, height_with_air_resistance.
  rewrite (terminal_velocity_zero_division Cd A m HCA).
  now destruct (mode =? mode_velocity)%string.
Qed.

(** C3, as the specification states it, fails: with a zero drag coefficient
    and air resistance switched off the run completes. *)
Lemma simulate_zero_drag_free_fall_completes :
  completes (simulate 0 19.25 70 1000 false mode_velocity 10 20) /\
  ~ raises (simulate 0 19.25 70 1000 false mode_velocity 10 20) "DomainError".
Proof.
  assert (Hc : completes (simulate 0 19.25 70 1000 false mode_velocity 10 20)).
  { destruct (simulate_completes 0 19.25 70 1000 false mode_velocity 10 20)
      as (a & Ha & _); [lia | lia | discriminate |].
    now exists a. }
  split; [exact Hc | now apply completes_not_raises].
Qed.

(** C3, amended: when [Cd = 0] or [A = 0] every air-resistance function
    raises [ZeroDivisionError], on a float and on an array alike, and so does
    [simulate] with air resistance once the grid is built, so that no
    animation is set up; without air resistance [simulate] does not depend on
    [Cd] and [A]. *)
Theorem zero_drag_raises_zero_division (Cd A : R) (h m : Z) (mode : string)
    (seconds fps : Z) :
  Cd = 0 \/ A = 0 ->
  terminal_velocity_with_air_resistance Cd A m = Raise ZeroDivisionError /\
  (forall (F : Type) (N : Num F) (t : F),
     velocity_with_air_resistance Cd A m t = Raise ZeroDivisionError /\
     height_with_air_resistance Cd A h m t = Raise ZeroDivisionError) /\
  ((0 <= fps * seconds + 1)%Z ->
   simulate Cd A h m true mode seconds fps = Raise ZeroDivisionError) /\
  (forall Cd' A' : R,
     simulate Cd A h m false mode seconds fps
     = simulate Cd' A' h m false mode seconds fps).
Proof.
  intros Hz. apply zero_drag_product in Hz.
  pose proof (terminal_velocity_zero_division Cd A m Hz) as Hterm.
  split; [exact Hterm |]. split; [| split].
  - intros F N t.
    unfold velocity_with_air_resistance, height_with_air_resistance.
    rewrite Hterm. split; reflexivity.
  - intros Hnum.
    destruct (linspace_total 0 (IZR seconds) _ Hnum) as (x & Hx & _).
    unfold simulate. rewrite Hx. cbn [bind].
    now rewrite series_zero_drag.
  - intros Cd' A'. reflexivity.
Qed.

Lemma zero_drag_raises_zero_division_witness :
  terminal_velocity_with_air_resistance 0 19.25 1000 = Raise ZeroDivisionError /\
  simulate 0 19.25 70 1000 true mode_height 10 20 = Raise ZeroDivisionError.
Proof.
  destruct (zero_drag_raises_zero_division 0 19.25 70 1000 mode_height 10 20)
    as (Hterm & _ & Hsim & _).
  - now left.
  - split; [exact Hterm | apply Hsim; lia].
Defined.




(** ** Derivatives of the drag model *)

Lemma dlim_exp_linear (k x : R) :
  derivable_pt_lim (fun t => exp (k * t)) x (k * exp (k * x)).
Proof.
  apply (derivable_pt_lim_ext (comp exp (mult_real_fct k id))).
  - intros z. reflexivity.
  - rewrite Rmult_comm.
    apply (derivable_pt_lim_comp (mult_real_fct k id) exp).
    + replace k with (k * 1) at 2 by ring.
      apply derivable_pt_lim_scal, derivable_pt_lim_id.
    + apply derivable_pt_lim_exp.
Qed.

Lemma dlim_ratio_exp (k x : R) :
  derivable_pt_lim (fun t => ratio (exp (k * t))) x
    (2 * k * exp (k * x) / (exp (k * x) + 1) ^ 2).
Proof.
  pose proof (exp_pos (k * x)) as HE.
  apply (derivable_pt_lim_ext
           (div_fct (minus_fct (fun t => exp (k * t)) (fct_cte 1))
                    (plus_fct (fun t => exp (k * t)) (fct_cte 1)))).
  - intros z. reflexivity.
  - replace (2 * k * exp (k * x) / (exp (k * x) + 1) ^ 2)
      with (((k * exp (k * x) - 0) * (exp (k * x) + 1)
             - (k * exp (k * x) + 0) * (exp (k * x) - 1))
            / Rsqr (exp (k * x) + 1))
      by (unfold Rsqr; field; lra).
    apply (derivable_pt_lim_div
             (minus_fct (fun t => exp (k * t)) (fct_cte 1))
             (plus_fct (fun t => exp (k * t)) (fct_cte 1))).
    + apply derivable_pt_lim_minus;
        [apply dlim_exp_linear | apply derivable_pt_lim_const].
    + apply derivable_pt_lim_plus;
        [apply dlim_exp_linear | apply derivable_pt_lim_const].
    + unfold plus_fct, fct_cte. lra.
Qed.

(** The slope of the drag velocity at time [t]. *)
Lemma dlim_velocity_exp_form (v_t t : R) :
  v_t <> 0 ->
  derivable_pt_lim (velocity_exp_form v_t) t
    (4 * g * exp (2 * g * t / v_t) / (exp (2 * g * t / v_t) + 1) ^ 2).
Proof.
  intros Hv. pose proof (exp_pos (2 * g * t / v_t)) as HE.
  apply (derivable_pt_lim_ext
           (mult_real_fct v_t (fun t => ratio (exp (2 * g / v_t * t))))).
  - intros z. unfold mult_real_fct. rewrite velocity_exp_form_ratio.
    do 3 f_equal. field. exact Hv.
  - replace (2 * g * t / v_t) with (2 * g / v_t * t) in * by (field; exact Hv).
    replace (4 * g * exp (2 * g / v_t * t) / (exp (2 * g / v_t * t) + 1) ^ 2)
      with (v_t * (2 * (2 * g / v_t) * exp (2 * g / v_t * t)
                   / (exp (2 * g / v_t * t) + 1) ^ 2))
      by (field; split; [lra | exact Hv]).
    apply derivable_pt_lim_scal, dlim_ratio_exp.
Qed.

Lemma dlim_ln_exp_plus_1 (k x : R) :
  derivable_pt_lim (fun t => ln (exp (k * t) + 1)) x
    (k * exp (k * x) / (exp (k * x) + 1)).
Proof.
  pose proof (exp_pos (k * x)) as HE.
  apply (derivable_pt_lim_ext
           (comp ln (plus_fct (fun t => exp (k * t)) (fct_cte 1)))).
  - intros z. reflexivity.
  - replace (k * exp (k * x) / (exp (k * x) + 1))
      with (/ (exp (k * x) + 1) * (k * exp (k * x) + 0)) by (field; lra).
    apply (derivable_pt_lim_comp
             (plus_fct (fun t => exp (k * t)) (fct_cte 1)) ln).
    + apply derivable_pt_lim_plus;
        [apply dlim_exp_linear | apply derivable_pt_lim_const].
    + apply derivable_pt_lim_ln. unfold plus_fct, fct_cte. lra.
Qed.

(** The slope of the drag height is the opposite of the drag velocity. *)
Lemma dlim_height_exp_form (v_t : R) (h : Z) (t : R) :
  v_t <> 0 ->
  derivable_pt_lim (height_exp_form v_t h) t (- velocity_exp_form v_t t).
Proof.
  intros Hv. pose proof (exp_pos (2 * g * t / v_t)) as HE. pose proof g_pos as Hg.
  set (k := 2 * g / v_t).
  apply (derivable_pt_lim_ext
           (plus_fct (fct_cte (IZR h + v_t ^ 2 / g * ln 2))
              (minus_fct (mult_real_fct v_t id)
                 (mult_real_fct (v_t ^ 2 / g) (fun t => ln (exp (k * t) + 1)))))).
  - intros z. unfold plus_fct, minus_fct, mult_real_fct, fct_cte, id, height_exp_form.
    replace (k * z) with (2 * g * z / v_t) by (unfold k; field; exact Hv).
    ring.
  - replace (- velocity_exp_form v_t t)
      with (0 + (v_t * 1 - v_t ^ 2 / g * (k * exp (k * t) / (exp (k * t) + 1)))).
    + apply derivable_pt_lim_plus; [apply derivable_pt_lim_const |].
      apply derivable_pt_lim_minus.
      * apply derivable_pt_lim_scal, derivable_pt_lim_id.
      * apply derivable_pt_lim_scal, dlim_ln_exp_plus_1.
    + unfold velocity_exp_form.
      replace (2 * g * t / v_t) with (k * t) in * by (unfold k; field; exact Hv).
      unfold k in *. field. repeat split; try assumption; lra.
Qed.

(** ** Further properties of the kinematics engine *)

Lemma height_float (h : Z) (t : R) : height h t = IZR h - 0.5 * (g * t) * t.
Proof. reflexivity. Qed.

Lemma dlim_height (h : Z) (t : R) :
  derivable_pt_lim (height h) t (- velocity t).
Proof.
  apply (derivable_pt_lim_ext
           (minus_fct (fct_cte (IZR h)) (mult_real_fct (0.5 * g) Rsqr))).
  - intros z. rewrite height_float.
    unfold minus_fct, mult_real_fct, fct_cte, Rsqr. ring.
  - replace (- velocity t) with (0 - 0.5 * g * (2 * t))
      by (unfold velocity; cbn [lift1 Num_float]; lra).
    apply derivable_pt_lim_minus; [apply derivable_pt_lim_const |].
    apply derivable_pt_lim_scal, derivable_pt_lim_Rsqr.
Qed.

(** X1: in free fall the height starts at [h], its slope at every time is the
    opposite of [velocity], and for [h >= 0] and [t >= 0] it is at or below
    the ground exactly from the time [sqrt (2 * h / g)] on; nothing stops the
    fall there. *)
Theorem free_fall_height_profile (h : Z) :
  height h 0 = IZR h /\
  (forall t : R, derivable_pt_lim (height h) t (- velocity t)) /\
  (forall t : R, (0 <= h)%Z -> 0 <= t ->
     (height h t <= 0 <-> sqrt (2 * IZR h / g) <= t)) /\
  (forall t : R, (0 <= h)%Z -> sqrt (2 * IZR h / g) < t -> height h t < 0).
Proof.
  pose proof g_pos as Hg.
  assert (Hcross : forall t : R, (0 <= h)%Z -> 0 <= t ->
            (height h t <= 0 <-> sqrt (2 * IZR h / g) <= t)).
  { intros t Hh Ht. apply IZR_le in Hh. rewrite height_float.
    assert (Hq : 0 <= 2 * IZR h / g)
      by (apply Rmult_le_pos; [lra | left; now apply Rinv_0_lt_compat]).
    assert (Heq : 2 * IZR h / g <= t * t <-> IZR h - 0.5 * (g * t) * t <= 0).
    { split; intros H.
      - apply (Rmult_le_compat_r g) in H; [| lra].
        replace (2 * IZR h / g * g) with (2 * IZR h) in H by (field; lra). lra.
      - apply (Rmult_le_reg_r g); [lra |].
        replace (2 * IZR h / g * g) with (2 * IZR h) by (field; lra). lra. }
    rewrite <- Heq. split; intros H.
    - rewrite <- (sqrt_square t) by exact Ht. now apply sqrt_le_1_alt.
    - rewrite <- (sqrt_sqrt (2 * IZR h / g)) by exact Hq.
      pose proof (sqrt_pos (2 * IZR h / g)). now apply Rmult_le_compat. }
  split; [| split; [| split]].
  - rewrite height_float. lra.
  - apply dlim_height.
  - exact Hcross.
  - intros t Hh Ht.
    pose proof (sqrt_pos (2 * IZR h / g)) as Hs.
    destruct (Rlt_le_dec (height h t) 0) as [Hneg | Hpos]; [exact Hneg |].
    set (u := (sqrt (2 * IZR h / g) + t) / 2).
    assert (Hu : 0 <= u < t) by (unfold u; lra).
    assert (Hmid : height h u <= 0) by (apply Hcross; [exact Hh | | unfold u]; lra).
    assert (Hsq : u * u < t * t) by nra.
    rewrite height_float in Hpos, Hmid. nra.
Qed.

Lemma free_fall_height_profile_witness :
  height 70 4 < 0.
Proof.
  destruct (free_fall_height_profile 70) as (_ & _ & _ & Hbelow).
  apply Hbelow; [lia |].
  apply Rsqr_incrst_0; [| apply sqrt_pos | lra].
  rewrite Rsqr_sqrt by (unfold g; lra).
  unfold Rsqr, g. lra.
Defined.

Lemma velocity_exp_form_0 (v_t : R) : velocity_exp_form v_t 0 = 0.
Proof.
  unfold velocity_exp_form.
  replace (2 * g * 0 / v_t) with 0 by (unfold Rdiv; ring).
  rewrite exp_0. unfold Rdiv. ring.
Qed.

Lemma terminal_velocity_formula_sq (Cd A : R) (m : Z) :
  0 < Cd * A -> (0 < m)%Z ->
  terminal_velocity_formula Cd A m ^ 2 = 2 * IZR m * g / (rho * Cd * A).
Proof.
  intros HCA Hm. unfold terminal_velocity_formula.
  rewrite <- Rsqr_pow2. apply Rsqr_sqrt. left. now apply radicand_pos.
Qed.

Lemma drag_equation (Cd A : R) (m : Z) (t : R) :
  0 < Cd * A -> (0 < m)%Z ->
  let v_t := terminal_velocity_formula Cd A m in
  4 * g * exp (2 * g * t / v_t) / (exp (2 * g * t / v_t) + 1) ^ 2
  = g - rho * Cd * A / (2 * IZR m) * velocity_exp_form v_t t ^ 2.
Proof.
  intros HCA Hm v_t.
  pose proof (terminal_velocity_formula_pos Cd A m HCA Hm) as Hv. fold v_t in Hv.
  pose proof (terminal_velocity_formula_sq Cd A m HCA Hm) as Hsq. fold v_t in Hsq.
  pose proof (exp_pos (2 * g * t / v_t)) as HE.
  pose proof g_pos as Hg. pose proof rho_pos as Hrho.
  assert (HmR : 0 < IZR m) by (apply IZR_lt; lia).
  assert (Hden : 0 < rho * Cd * A) by (rewrite Rmult_assoc; nra).
  assert (HCd : Cd <> 0) by (intros HCd; rewrite HCd in HCA; lra).
  assert (HA : A <> 0) by (intros HA; rewrite HA in HCA; lra).
  assert (Hk : rho * Cd * A / (2 * IZR m) = g / v_t ^ 2)
    by (rewrite Hsq; field; repeat split; try assumption; lra).
  rewrite Hk. unfold velocity_exp_form.
  set (E := exp (2 * g * t / v_t)) in *.
  field. split; lra.
Qed.

(** X2: for positive [Cd], [A] and [m] the drag velocity starts at 0 and obeys
    the equation of motion with quadratic drag,
    [v' = g - rho * Cd * A / (2 * m) * v ^ 2]. *)
Theorem velocity_with_air_resistance_equation_of_motion (Cd A : R) (m : Z) :
  0 < Cd -> 0 < A -> (0 < m)%Z ->
  exists v : R -> R,
    (forall t : R, velocity_with_air_resistance Cd A m t = Ok (v t)) /\
    v 0 = 0 /\
    (forall t : R,
       derivable_pt_lim v t (g - rho * Cd * A / (2 * IZR m) * v t ^ 2)).
Proof.
  intros HCd HA Hm.
  pose proof (drag_product_pos Cd A HCd HA) as HCA.
  pose proof (drag_terminal_pos Cd A m HCd HA Hm) as Hv.
  exists (velocity_exp_form (terminal_velocity_formula Cd A m)).
  split; [| split].
  - intros t. now apply drag_velocity.
  - apply velocity_exp_form_0.
  - intros t. rewrite <- (drag_equation Cd A m t HCA Hm).
    apply dlim_velocity_exp_form. lra.
Qed.

Lemma velocity_with_air_resistance_equation_of_motion_witness :
  exists v : R -> R,
    (forall t : R, velocity_with_air_resistance 0.42 19.25 1000 t = Ok (v t)) /\
    v 0 = 0 /\
    (forall t : R,
       derivable_pt_lim v t (g - rho * 0.42 * 19.25 / (2 * IZR 1000) * v t ^ 2)).
Proof.
  apply (velocity_with_air_resistance_equation_of_motion 0.42 19.25 1000);
    try lra; lia.
Defined.

(** X3: for positive [Cd], [A] and [m] the slope of
    [height_with_air_resistance] at every time is the opposite of
    [velocity_with_air_resistance] at that time. *)
Theorem height_with_air_resistance_slope (Cd A : R) (h m : Z) :
  0 < Cd -> 0 < A -> (0 < m)%Z ->
  exists y v : R -> R,
    (forall t : R, height_with_air_resistance Cd A h m t = Ok (y t)) /\
    (forall t : R, velocity_with_air_resistance Cd A m t = Ok (v t)) /\
    (forall t : R, derivable_pt_lim y t (- v t)).
Proof.
  intros HCd HA Hm.
  pose proof (drag_terminal_pos Cd A m HCd HA Hm) as Hv.
  exists (height_exp_form (terminal_velocity_formula Cd A m) h),
         (velocity_exp_form (terminal_velocity_formula Cd A m)).
  split; [| split].
  - intros t. now apply drag_height.
  - intros t. now apply drag_velocity.
  - intros t. apply dlim_height_exp_form. lra.
Qed.

Lemma height_with_air_resistance_slope_witness :
  exists y v : R -> R,
    (forall t : R, height_with_air_resistance 0.42 19.25 70 1000 t = Ok (y t)) /\
    (forall t : R, velocity_with_air_resistance 0.42 19.25 1000 t = Ok (v t)) /\
    (forall t : R, derivable_pt_lim y t (- v t)).
Proof.
  apply (height_with_air_resistance_slope 0.42 19.25 70 1000); try lra; lia.
Defined.

(** ** The terminal velocity over all masses and drag factors *)

Lemma radicand_factor (Cd A : R) (m : Z) :
  Cd * A <> 0 ->
  exists c, 0 < c /\ 2 * IZR m * g / (rho * Cd * A) = c * (IZR m * (Cd * A)).
Proof.
  intros HCA. pose proof g_pos as Hg. pose proof rho_pos as Hrho.
  assert (Hsq : 0 < (Cd * A) * (Cd * A)).
  { destruct (Rtotal_order (Cd * A) 0) as [H | [H | H]]; [| contradiction |]; nra. }
  exists (2 * g / (rho * ((Cd * A) * (Cd * A)))). split.
  - apply Rdiv_lt_0_compat; nra.
  - assert (HCd : Cd <> 0) by (intros H; apply HCA; rewrite H; ring).
    assert (HA : A <> 0) by (intros H; apply HCA; rewrite H; ring).
    field. repeat split; try assumption; lra.
Qed.


Lemma terminal_velocity_zero_mass (Cd A : R) :
  Cd * A <> 0 -> terminal_velocity_with_air_resistance Cd A 0 = Ok 0.
Proof.
  intros HCA. pose proof rho_pos as Hrho.
  unfold terminal_velocity_with_air_resistance.
  rewrite float_div_ok by (rewrite Rmult_assoc; nra). cbn [bind].
  replace (2 * 0 * g / (rho * Cd * A)) with 0 by (unfold Rdiv; ring).
  unfold float_pow_half.
  destruct (total_order_T 0 0) as [[H | H] | H]; try lra. reflexivity.
Qed.

Lemma terminal_velocity_negative_product (Cd A : R) (m : Z) :
  IZR m * (Cd * A) < 0 ->
  terminal_velocity_with_air_resistance Cd A m = Leaves Complex.
Proof.
  intros Hp. pose proof rho_pos as Hrho.
  assert (HCA : Cd * A <> 0) by (intros H; rewrite H in Hp; lra).
  destruct (radicand_factor Cd A m HCA) as (c & Hc & Hq).
  assert (Hneg : 2 * IZR m * g / (rho * Cd * A) < 0) by (rewrite Hq; nra).
  unfold terminal_velocity_with_air_resistance.
  rewrite float_div_ok by (rewrite Rmult_assoc; nra). cbn [bind].
  now apply float_pow_half_neg.
Qed.



Lemma drag_array_zero_terminal (Cd A : R) (h m : Z) (x : list R) :
  terminal_velocity_with_air_resistance Cd A m = Ok 0 -> x <> [] ->
  velocity_with_air_resistance Cd A m x = Leaves NonFinite /\
  height_with_air_resistance Cd A h m x = Leaves NonFinite.
Proof.
  intros Ht Hx. destruct x as [| t x]; [congruence |].
  unfold velocity_with_air_resistance, height_with_air_resistance.
  rewrite Ht. cbn [bind div_scalar lift1 map Num_ndarray].
  rewrite Rzero_b_true by reflexivity. split; reflexivity.
Qed.

Lemma drag_float_zero_terminal (Cd A : R) (h m : Z) (t : R) :
  terminal_velocity_with_air_resistance Cd A m = Ok 0 ->
  velocity_with_air_resistance Cd A m t = Raise ZeroDivisionError /\
  height_with_air_resistance Cd A h m t = Raise ZeroDivisionError.
Proof.
  intros Ht. unfold velocity_with_air_resistance, height_with_air_resistance.
  rewrite Ht. cbn [bind div_scalar Num_float].
  rewrite float_div_zero by reflexivity. split; reflexivity.
Qed.

(** ** The series and the grid inside [simulate] *)








(** ** Further properties of the renderer *)

(** X6: outside the positive masses the terminal velocity degenerates without
    an exception of its own: with [Cd * A <> 0] a zero mass gives terminal
    velocity 0, after which the drag functions divide by it (a
    [ZeroDivisionError] on a float, inf/nan on a non-empty array), and a negative
    product [m * (Cd * A)] gives a complex number. *)
Theorem terminal_velocity_degenerate_masses (Cd A : R) (h m : Z) :
  (Cd * A <> 0 ->
   terminal_velocity_with_air_resistance Cd A 0 = Ok 0 /\
   (forall t : R,
      velocity_with_air_resistance Cd A 0 t = Raise ZeroDivisionError /\
      height_with_air_resistance Cd A h 0 t = Raise ZeroDivisionError) /\
   (forall x : list R, x <> [] ->
      velocity_with_air_resistance Cd A 0 x = Leaves NonFinite /\
      height_with_air_resistance Cd A h 0 x = Leaves NonFinite)) /\
  (IZR m * (Cd * A) < 0 ->
   terminal_velocity_with_air_resistance Cd A m = Leaves Complex).
Proof.
  split.
  - intros HCA. pose proof (terminal_velocity_zero_mass Cd A HCA) as Ht.
    split; [exact Ht |]. split.
    + intros t. now apply drag_float_zero_terminal.
    + intros x Hx. now apply drag_array_zero_terminal.
  - apply terminal_velocity_negative_product.
Qed.

Lemma terminal_velocity_degenerate_masses_witness :
  velocity_with_air_resistance 0.42 19.25 0 1 = Raise ZeroDivisionError /\
  velocity_with_air_resistance 0.42 19.25 0 [0; 1] = Leaves NonFinite /\
  terminal_velocity_with_air_resistance 0.42 19.25 (-1) = Leaves Complex.
Proof.
  destruct (terminal_velocity_degenerate_masses 0.42 19.25 70 (-1)) as (Hzero & Hneg).
  destruct Hzero as (_ & Hfloat & Harray); [lra |].
  split; [apply Hfloat |]. split; [apply Harray; discriminate | apply Hneg; lra].
Defined.





